(** * Micromagnetic standard problem 3: the notebook's glue code

    The notebook [standard_problem3.ipynb] sets up a cubic sample, two
    initial magnetisation configurations (flower and vortex), relaxes each
    one with an external engine and looks for the edge length at which the
    two relaxed energies cross.

    Python floats are idealised as real numbers: rounding is not modelled,
    and comparisons are the decidable comparisons of [R].  The one exception
    is [Binary64], which evaluates the material constants in IEEE double
    precision, as Python does, to show where rounding matters. *)

From Stdlib Require Import Floats Reals Lra Lia List String.
Import ListNotations.

Open Scope R_scope.

(** ** Three-component vectors *)

Definition Vec : Type := (R * R * R)%type.

Definition vx (v : Vec) : R := fst (fst v).
Definition vy (v : Vec) : R := snd (fst v).
Definition vz (v : Vec) : R := snd v.

Definition norm_sq (v : Vec) : R := vx v ^ 2 + vy v ^ 2 + vz v ^ 2.

Definition vnorm (v : Vec) : R := sqrt (norm_sq v).

Definition vscale (c : R) (v : Vec) : Vec := (c * vx v, c * vy v, c * vz v).

(** ** Initial configurations (notebook cell 2) *)

Module Init.

(** The literal [1e-9]. *)
Definition nano : R := / 10 ^ 9.

(** The vector computed by [m_init_flower] before its norm test:
    [x, y, z = pos[0]/1e-9, pos[1]/1e-9, pos[2]/1e-9],
    [mx = 0], [my = -2*z + 1], [mz = 2*y - 1]. *)
Definition flower_raw (pos : Vec) : Vec :=
  let y := vy pos / nano in
  let z := vz pos / nano in
  (0, -2 * z + 1, 2 * y - 1).

(** [m_init_flower(pos)]. *)
Definition m_init_flower (pos : Vec) : Vec :=
  let x := vx pos / nano in
  let y := vy pos / nano in
  let z := vz pos / nano in
  let mx := 0 in
  let my := -2 * z + 1 in
  let mz := 2 * y - 1 in
  let norm_squared := mx ^ 2 + my ^ 2 + mz ^ 2 in
  if Rle_dec norm_squared (5 / 100) then (1, 0, 0) else (mx, my, mz).

(** [m_init_vortex(pos)]. *)
Definition m_init_vortex (pos : Vec) : Vec :=
  let x := vx pos / nano in
  let y := vy pos / nano in
  let z := vz pos / nano in
  let mx := 0 in
  let my := sin (PI / 2 * (- x - 5 / 10)) in
  let mz := cos (PI / 2 * (- x - 5 / 10)) in
  (mx, my, mz).

End Init.

(** ** Mesh and field (notebook cell 3, lines 114-122) *)

Module Mesh.

(** The arguments of [oc.Mesh(p1=..., p2=..., cell=...)]. *)
Record t : Type := mk { p1 : Vec; p2 : Vec; cell : Vec }.

(** Modelled from the spec: the mesh class lives in the external package
    [oommfc] and is absent from the sources.  Section 3 of the spec derives
    the cell count per axis from the two corners and the cell size, rounded
    to the nearest integer. *)
Definition count (lo hi d : R) : nat := Z.to_nat (up ((hi - lo) / d - 1 / 2)).

Definition index : Type := (nat * nat * nat)%type.

(** Modelled from the spec: every index (i, j, k) below the per-axis cell
    counts, in row-major order. *)
Definition indices (g : t) : list index :=
  list_prod
    (list_prod (seq 0 (count (vx (p1 g)) (vx (p2 g)) (vx (cell g))))
               (seq 0 (count (vy (p1 g)) (vy (p2 g)) (vy (cell g)))))
    (seq 0 (count (vz (p1 g)) (vz (p2 g)) (vz (cell g)))).

(** Modelled from the spec: the cell-centre coordinate of an index. *)
Definition centre (g : t) (ijk : index) : Vec :=
  let '(i, j, k) := ijk in
  (vx (p1 g) + (INR i + 1 / 2) * vx (cell g),
   vy (p1 g) + (INR j + 1 / 2) * vy (cell g),
   vz (p1 g) + (INR k + 1 / 2) * vz (cell g)).

End Mesh.

Module Field.

(** The arguments of [df.Field(mesh, value=..., norm=...)]. *)
Record t : Type := mk { mesh : Mesh.t; value : Vec -> Vec; norm : R }.

Section Construction.

(** The near-zero threshold and the fallback direction of section 4.2. *)
Variable threshold : R.
Variable fallback : Vec.

(** Modelled from the spec: the field class lives in the external package
    [discretisedfield] and is absent from the sources.  Section 4.2: an
    initialiser result whose squared norm is at most the threshold is
    replaced by the fallback direction. *)
Definition direction (init : Vec -> Vec) (pos : Vec) : Vec :=
  let v := init pos in
  if Rle_dec (norm_sq v) threshold then fallback else v.

(** Modelled from the spec: section 4.2, construction normalises each
    vector to unit length and scales it by the saturation magnitude. *)
Definition stored (f : t) (pos : Vec) : Vec :=
  let d := direction (value f) pos in
  vscale (norm f) (vscale (/ vnorm d) d).

(** Modelled from the spec: the dense array of stored vectors, one per
    cell, each computed at the cell centre. *)
Definition array (f : t) : list Vec :=
  map (fun ijk => stored f (Mesh.centre (mesh f) ijk)) (Mesh.indices (mesh f)).

End Construction.

End Field.

(** ** The system and its relaxation (notebook cell 3) *)

Inductive EnergyTerm : Type :=
| Exchange (A : R)
| UniaxialAnisotropy (K : R) (u : Vec)
| Demag
| Zeeman (H : Vec).

Module System.

(** [oc.System(name=...)] with the two attributes the notebook assigns. *)
Record t : Type := mk
  { name : string; hamiltonian : list EnergyTerm; m : Field.t }.

End System.

Module Engine.

Section Engine.

(** [oc.mu0], a constant of the external package. *)
Variable mu0 : R.

(** [oc.MinDriver().drive(system)] updates the system in place; here it is
    a function from the system before to the system after. *)
Variable drive : System.t -> System.t.

(** [system.total_energy()]. *)
Variable total_energy : System.t -> R.

Definition N : R := 16.
Definition cubesize : R := 100 * / 10 ^ 9.
Definition cellsize : R := cubesize / N.
Definition lex (L : R) : R := cubesize / L.
Definition Km : R := 10 ^ 6.
Definition Ms : R := sqrt (2 * Km / mu0).
Definition A (L : R) : R := 5 / 10 * mu0 * Ms ^ 2 * lex L ^ 2.
Definition K : R := 1 / 10 * Km.
Definition u : Vec := (0, 0, 1).

Definition mesh : Mesh.t :=
  Mesh.mk (0, 0, 0) (cubesize, cubesize, cubesize)
          (cellsize, cellsize, cellsize).

(** The system as it is handed to the driver. *)
Definition initial_system (L : R) (m_init : Vec -> Vec) : System.t :=
  System.mk "stdprob3"
            [Exchange (A L); UniaxialAnisotropy K u; Demag]
            (Field.mk mesh m_init Ms).

(** [minimise_system_energy(L, m_init)]; the progress line it prints is
    left out. *)
Definition minimise_system_energy (L : R) (m_init : Vec -> Vec) : System.t :=
  drive (initial_system L m_init).

(** [energy_difference(L)] (notebook cell 7). *)
Definition energy_difference (L : R) : R :=
  let vortex := minimise_system_energy L Init.m_init_vortex in
  let flower := minimise_system_energy L Init.m_init_flower in
  total_energy vortex - total_energy flower.

End Engine.

End Engine.

(** ** The critical-length search (notebook cell 7) *)

Module Search.

Inductive result : Type :=
| Crossing (c : R)
| NoBracket (d_lo d_hi : R).

Definition bracket : Type := (R * R)%type.

Definition width (b : bracket) : R := snd b - fst b.
Definition midpoint (b : bracket) : R := (fst b + snd b) / 2.

(** Strictly opposite signs, as required of the two end points. *)
Definition opposite_signs (x y : R) : Prop :=
  (x < 0 /\ 0 < y) \/ (0 < x /\ y < 0).

(** The same strict sign. *)
Definition same_sign (x y : R) : Prop :=
  (0 < x /\ 0 < y) \/ (x < 0 /\ y < 0).

(** A bracket retains a sign change when its end values do not share a
    strict sign (a zero at an end point counts). *)
Definition sign_change (x y : R) : Prop :=
  (x <= 0 /\ 0 <= y) \/ (0 <= x /\ y <= 0).

(** Modelled from the spec: one narrowing step of section 4.6, evaluate d
    at the midpoint and keep the half retaining a sign change. *)
Definition halve (d : R -> R) (b : bracket) : bracket :=
  let mid := midpoint b in
  if Rle_dec (d (fst b) * d mid) 0 then (fst b, mid) else (mid, snd b).

(** Modelled from the spec: section 4.6, narrow until the bracket width is
    below the tolerance.  The loop is bounded by [fuel]; [None] means the
    fuel ran out first. *)
Fixpoint narrow (fuel : nat) (d : R -> R) (tol : R) (b : bracket)
  : option bracket :=
  if Rlt_dec (width b) tol then Some b
  else match fuel with
       | O => None
       | S n => narrow n d tol (halve d b)
       end.

(** The brackets the loop goes through, the first one included. *)
Fixpoint brackets (fuel : nat) (d : R -> R) (tol : R) (b : bracket)
  : list bracket :=
  b :: (if Rlt_dec (width b) tol then []
        else match fuel with
             | O => []
             | S n => brackets n d tol (halve d b)
             end).

(** Modelled from the spec: [bisect] is imported from the external package
    [scipy.optimize] and is absent from the sources.  Section 4.6: the
    search requires opposite signs at the two end points and fails with
    NoBracket otherwise, carrying both end-point values (section 7); it
    returns the midpoint of the final bracket. *)
Definition bisect (fuel : nat) (d : R -> R) (lo hi xtol : R)
  : option result :=
  if Rlt_dec (d lo * d hi) 0
  then option_map (fun b => Crossing (midpoint b)) (narrow fuel d xtol (lo, hi))
  else Some (NoBracket (d lo) (d hi)).

Section Notebook.

Variable mu0 : R.
Variable drive : System.t -> System.t.
Variable total_energy : System.t -> R.

(** [crossing = bisect(energy_difference, 8, 9, xtol=0.1)]. *)
Definition crossing (fuel : nat) : option result :=
  bisect fuel (Engine.energy_difference mu0 drive total_energy) 8 9 (1 / 10).

End Notebook.

(** Each bracket of a list is followed by its half chosen by [halve], and
    is left only while its width is not below the tolerance. *)
Fixpoint halving_chain (d : R -> R) (tol : R) (l : list bracket) : Prop :=
  match l with
  | b :: ((b' :: _) as rest) =>
      tol <= width b /\ b' = halve d b /\ halving_chain d tol rest
  | _ => True
  end.

End Search.

(** ** Sample inputs *)

Module Samples.

(** An energy difference that is negative at 8 and positive at 9. *)
Definition ramp (L : R) : R := L - 17 / 2.

(** The vacuum permeability in SI units. *)
Definition mu0_SI : R := 4 * PI * / 10 ^ 7.

(** The position (0, 0.5e-9, 0.5e-9), where the flower vector
    (0, -2z+1, 2y-1) vanishes. *)
Definition probe : Vec := (0, Init.nano / 2, Init.nano / 2).

(** A driver that leaves the system as it is. *)
Definition no_drive (s : System.t) : System.t := s.

(** An energy read-out that returns the x component of the initialiser at
    the probe position. *)
Definition probe_energy (s : System.t) : R :=
  vx (Field.value (System.m s) probe).

End Samples.

(** ** The energy scan (notebook cell 6) *)

Module Scan.

Section Scan.

Variable mu0 : R.
Variable drive : System.t -> System.t.
Variable total_energy : System.t -> R.

(** The body of [for L in L_array:], threaded through the two lists
    [vortex_energies] and [flower_energies] that it appends to. *)
Fixpoint scan_loop (L_array : list R) (energies : list R * list R)
  : list R * list R :=
  match L_array with
  | [] => energies
  | L :: rest =>
      let vortex :=
        Engine.minimise_system_energy mu0 drive L Init.m_init_vortex in
      let flower :=
        Engine.minimise_system_energy mu0 drive L Init.m_init_flower in
      scan_loop rest (fst energies ++ [total_energy vortex],
                      snd energies ++ [total_energy flower])
  end.

(** Both lists start empty; the result is
    [(vortex_energies, flower_energies)]. *)
Definition energy_scan (L_array : list R) : list R * list R :=
  scan_loop L_array ([], []).

End Scan.

End Scan.

(** ** The material constants in double precision (notebook cell 3) *)

Module Binary64.

#[local] Set Warnings "-inexact-float".

(** [np.pi], the double nearest to pi. *)
Definition pi : float := 0x1.921fb54442d18p+1%float.

(** [oc.mu0]: the external package defines it as [4*np.pi*1e-7]. *)
Definition mu0 : float := (4 * pi * 1e-7)%float.

Definition N : float := 16%float.
Definition cubesize : float := 100e-9%float.
Definition cellsize : float := (cubesize / N)%float.
Definition lex (L : float) : float := (cubesize / L)%float.
Definition Km : float := 1e6%float.
Definition Ms : float := PrimFloat.sqrt (2 * Km / mu0)%float.

(** [0.5 * oc.mu0 * Ms**2 * lex**2], evaluated left to right; squaring is
    one multiplication. *)
Definition A (L : float) : float :=
  (0.5 * mu0 * (Ms * Ms) * (lex L * lex L))%float.
Definition K : float := (0.1 * Km)%float.

(** The left-hand side of the first identity, [0.5 * oc.mu0 * Ms**2]. *)
Definition half_mu0_Ms2 : float := (0.5 * mu0 * (Ms * Ms))%float.

(** The cube edge in exchange lengths, [cubesize / sqrt(A / Km)]. *)
Definition edge_in_exchange_lengths (L : float) : float :=
  (cubesize / PrimFloat.sqrt (A L / Km))%float.

End Binary64.

(** ** Facts about vectors *)

Lemma norm_sq_nonneg (v : Vec) : 0 <= norm_sq v.
Proof.
  unfold norm_sq.
  pose proof (pow2_ge_0 (vx v)); pose proof (pow2_ge_0 (vy v));
    pose proof (pow2_ge_0 (vz v)); lra.
Qed.

Lemma vnorm_nonneg (v : Vec) : 0 <= vnorm v.
Proof. apply sqrt_pos. Qed.

Lemma vnorm_zero_iff (v : Vec) : vnorm v = 0 <-> norm_sq v = 0.
Proof.
  unfold vnorm; split; intros H.
  - apply sqrt_eq_0; [apply norm_sq_nonneg | exact H].
  - rewrite H; apply sqrt_0.
Qed.

Lemma vnorm_pos (v : Vec) : 0 < norm_sq v -> 0 < vnorm v.
Proof. intros H; apply sqrt_lt_R0; exact H. Qed.

(** ** Facts about the initial configurations *)

Module InitFacts.
Import Init.

Lemma m_init_flower_unfold (pos : Vec) :
  m_init_flower pos =
  if Rle_dec (norm_sq (flower_raw pos)) (5 / 100) then (1, 0, 0)
  else flower_raw pos.
Proof. reflexivity. Qed.

Lemma flower_small (pos : Vec) :
  norm_sq (flower_raw pos) <= 5 / 100 -> m_init_flower pos = (1, 0, 0).
Proof.
  intros H; rewrite m_init_flower_unfold.
  destruct (Rle_dec _ _) as [_ | n]; [reflexivity | contradiction].
Qed.

Lemma flower_large (pos : Vec) :
  ~ norm_sq (flower_raw pos) <= 5 / 100 -> m_init_flower pos = flower_raw pos.
Proof.
  intros H; rewrite m_init_flower_unfold.
  destruct (Rle_dec _ _) as [l | _]; [contradiction | reflexivity].
Qed.

Lemma flower_norm_sq_pos (pos : Vec) : 0 < norm_sq (m_init_flower pos).
Proof.
  rewrite m_init_flower_unfold.
  destruct (Rle_dec _ _) as [_ | n].
  - unfold norm_sq, vx, vy, vz; simpl; lra.
  - lra.
Qed.

Lemma flower_norm_sq_gt (pos : Vec) : 5 / 100 < norm_sq (m_init_flower pos).
Proof.
  rewrite m_init_flower_unfold.
  destruct (Rle_dec _ _) as [_ | Hbig]; [| lra].
  unfold norm_sq, vx, vy, vz; simpl; lra.
Qed.

Lemma flower_is_fallback_iff (pos : Vec) :
  m_init_flower pos = (1, 0, 0) <-> norm_sq (flower_raw pos) <= 5 / 100.
Proof.
  split; intros H; [| apply flower_small; exact H].
  rewrite m_init_flower_unfold in H.
  destruct (Rle_dec _ _) as [Hle | _]; [exact Hle |].
  unfold flower_raw in H; injection H; intros; lra.
Qed.

(** C2: when the vector (0, -2z+1, 2y-1) has squared norm at most 0.05 the
    flower initialiser returns the fallback direction (1, 0, 0); otherwise
    it returns (0, -2z+1, 2y-1) itself; and in both cases the returned
    vector has a non-zero Euclidean norm. *)
Theorem flower_fallback_and_nonzero (pos : Vec) :
  let y := vy pos / nano in
  let z := vz pos / nano in
  let v : Vec := (0, -2 * z + 1, 2 * y - 1) in
  (norm_sq v <= 5 / 100 -> m_init_flower pos = (1, 0, 0)) /\
  (~ norm_sq v <= 5 / 100 -> m_init_flower pos = v) /\
  vnorm (m_init_flower pos) <> 0.
Proof.
  cbv zeta; split; [| split].
  - apply flower_small.
  - apply flower_large.
  - pose proof (vnorm_pos _ (flower_norm_sq_pos pos)); lra.
Qed.

(** C10: the flower initialiser does not look at the x coordinate: two
    positions with the same y and z coordinates get the same vector. *)
Theorem flower_independent_of_x (x1 x2 y z : R) :
  m_init_flower (x1, y, z) = m_init_flower (x2, y, z).
Proof. reflexivity. Qed.

End InitFacts.

(** ** Facts about the search *)

Module SearchFacts.
Import Search Samples.

(** The three sign relations, as tests on the product. *)

Lemma opposite_signs_iff (x y : R) : opposite_signs x y <-> x * y < 0.
Proof.
  unfold opposite_signs; split.
  - intros [[Hx Hy] | [Hx Hy]]; nra.
  - intros H.
    destruct (Rlt_le_dec x 0) as [Hx | Hx]; destruct (Rlt_le_dec 0 y) as [Hy | Hy];
      [left; split; assumption | exfalso; nra | exfalso; nra |].
    right; split; [| destruct Hy as [Hy | Hy]; [exact Hy | subst; lra]].
    destruct Hx as [Hx | Hx]; [exact Hx | subst; lra].
Qed.

Lemma same_sign_iff (x y : R) : same_sign x y <-> 0 < x * y.
Proof.
  unfold same_sign; split.
  - intros [[Hx Hy] | [Hx Hy]]; nra.
  - intros H.
    destruct (Rlt_le_dec 0 x) as [Hx | Hx]; destruct (Rlt_le_dec 0 y) as [Hy | Hy];
      [left; split; assumption | exfalso; nra | exfalso; nra |].
    right; split.
    + destruct Hx as [Hx | Hx]; [exact Hx | subst; lra].
    + destruct Hy as [Hy | Hy]; [exact Hy | subst; lra].
Qed.

Lemma sign_change_iff (x y : R) : sign_change x y <-> x * y <= 0.
Proof.
  unfold sign_change; split.
  - intros [[Hx Hy] | [Hx Hy]]; nra.
  - intros H.
    destruct (Rle_dec x 0) as [Hx | Hx]; destruct (Rle_dec 0 y) as [Hy | Hy];
      [left; split; assumption | | |].
    + right; split; [| lra].
      destruct (Rle_dec 0 x) as [H0 | H0]; [exact H0 | exfalso; nra].
    + right; split; [lra |].
      destruct (Rle_dec y 0) as [H0 | H0]; [exact H0 | exfalso; nra].
    + right; split; lra.
Qed.

Lemma opposite_signs_change (x y : R) : opposite_signs x y -> sign_change x y.
Proof.
  rewrite opposite_signs_iff, sign_change_iff; lra.
Qed.

Section Narrowing.

Variable d : R -> R.
Variable tol : R.

Lemma halve_width (b : bracket) : width (halve d b) = width b / 2.
Proof.
  unfold halve, width, midpoint; destruct b as [lo hi]; simpl.
  destruct (Rle_dec _ _); simpl; lra.
Qed.

Lemma halve_inside (b : bracket) :
  fst b < snd b ->
  fst b <= fst (halve d b) /\ fst (halve d b) < snd (halve d b) /\
  snd (halve d b) <= snd b.
Proof.
  unfold halve, midpoint; destruct b as [lo hi]; simpl; intros H.
  destruct (Rle_dec _ _); simpl; lra.
Qed.

Lemma sign_change_transfer (a m h : R) :
  a * h <= 0 -> ~ a * m <= 0 -> m * h <= 0.
Proof.
  intros Hah Ham.
  destruct (Rle_dec (m * h) 0) as [Hle | Hgt]; [exact Hle | exfalso].
  assert (H1 : 0 < a * m) by lra.
  assert (H2 : 0 < m * h) by lra.
  assert (H3 : 0 < (a * m) * (m * h)) by (apply Rmult_lt_0_compat; assumption).
  assert (H4 : 0 <= m * m) by (apply Rle_0_sqr).
  assert (H5 : (a * m) * (m * h) = (m * m) * (a * h)) by ring.
  rewrite H5 in H3.
  assert (H6 : (m * m) * (a * h) <= 0).
  { replace 0 with ((m * m) * 0) by ring.
    apply Rmult_le_compat_l; assumption. }
  lra.
Qed.

Lemma halve_sign_change (b : bracket) :
  sign_change (d (fst b)) (d (snd b)) ->
  sign_change (d (fst (halve d b))) (d (snd (halve d b))).
Proof.
  rewrite !sign_change_iff.
  unfold halve; destruct b as [lo hi]; simpl; intros H.
  destruct (Rle_dec _ _) as [Hl | Hr]; simpl.
  - exact Hl.
  - eapply sign_change_transfer; eassumption.
Qed.

Lemma last_nonempty_default (l : list bracket) (a x y : bracket) :
  last (a :: l) x = last (a :: l) y.
Proof.
  revert a; induction l as [| c l IH]; intros a; [reflexivity |].
  change (last (c :: l) x = last (c :: l) y); apply IH.
Qed.

Lemma brackets_head (fuel : nat) (b : bracket) :
  hd b (brackets fuel d tol b) = b.
Proof. destruct fuel; reflexivity. Qed.

Lemma brackets_cons (fuel : nat) (b : bracket) :
  exists rest, brackets fuel d tol b = b :: rest.
Proof. destruct fuel; simpl; eexists; reflexivity. Qed.

(** What the loop does once the fuel is enough to bring the width below
    the tolerance. *)
Lemma narrow_spec (fuel : nat) :
  forall b : bracket,
    fst b < snd b ->
    sign_change (d (fst b)) (d (snd b)) ->
    width b / 2 ^ fuel < tol ->
    exists b' : bracket,
      narrow fuel d tol b = Some b' /\
      last (brackets fuel d tol b) b = b' /\
      width b' < tol /\
      fst b <= fst b' /\ fst b' < snd b' /\ snd b' <= snd b /\
      Forall (fun c => fst c < snd c /\ sign_change (d (fst c)) (d (snd c)))
             (brackets fuel d tol b) /\
      halving_chain d tol (brackets fuel d tol b).
Proof.
  induction fuel as [| n IH]; intros b Hlt Hsc Hw.
  - simpl in Hw. assert (Hw' : width b < tol) by lra.
    exists b; simpl.
    destruct (Rlt_dec (width b) tol) as [_ | Hn]; [| contradiction].
    repeat split; try lra; try reflexivity.
    constructor; [split; assumption | constructor].
  - simpl narrow; simpl brackets.
    destruct (Rlt_dec (width b) tol) as [Hsmall | Hbig].
    + exists b; repeat split; try lra; try reflexivity; try assumption.
      constructor; [split; assumption | constructor].
    + destruct (halve_inside b Hlt) as (Hlo & Hmid & Hhi).
      assert (Hw2 : width (halve d b) / 2 ^ n < tol).
      { rewrite halve_width. simpl in Hw.
        replace (width b / 2 / 2 ^ n) with (width b / (2 * 2 ^ n)); [exact Hw |].
        field. apply pow_nonzero; lra. }
      destruct (IH (halve d b) Hmid (halve_sign_change b Hsc) Hw2)
        as (b' & Hn & Hlast & Hwb & H1 & H2 & H3 & Hall & Hchain).
      exists b'.
      destruct (brackets_cons n (halve d b)) as [rest Hrest].
      repeat split; try assumption; try lra.
      * rewrite Hrest in *.
        change (last (halve d b :: rest) b = b').
        rewrite (last_nonempty_default _ _ b (halve d b)); exact Hlast.
      * constructor; [split; assumption | exact Hall].
      * rewrite Hrest in *. simpl. repeat split; [lra | exact Hchain].
Qed.

(** Some number of halvings brings any width below a positive tolerance. *)
Lemma enough_halvings (w : R) :
  0 < tol -> exists n : nat, forall fuel, (n <= fuel)%nat -> 0 <= w ->
                                          w / 2 ^ fuel < tol.
Proof.
  intros Htol.
  destruct (Pow_x_infinity 2) with (b := w / tol + 1) as [n Hn].
  { rewrite Rabs_pos_eq; lra. }
  exists n; intros fuel Hle Hw.
  specialize (Hn fuel Hle).
  assert (Hp : 0 < 2 ^ fuel) by (apply pow_lt; lra).
  rewrite Rabs_pos_eq in Hn by lra.
  apply Rmult_lt_reg_r with (r := 2 ^ fuel); [exact Hp |].
  unfold Rdiv; rewrite Rmult_assoc, Rinv_l, Rmult_1_r by lra.
  assert (Hq : w / tol < 2 ^ fuel) by lra.
  apply Rmult_lt_compat_r with (r := tol) in Hq; [| exact Htol].
  unfold Rdiv in Hq; rewrite Rmult_assoc, Rinv_l, Rmult_1_r in Hq by lra.
  lra.
Qed.

End Narrowing.

Lemma bisect_on_bracket (fuel : nat) (d : R -> R) (lo hi tol : R) :
  opposite_signs (d lo) (d hi) ->
  bisect fuel d lo hi tol =
  option_map (fun b => Crossing (midpoint b)) (narrow fuel d tol (lo, hi)).
Proof.
  rewrite opposite_signs_iff; unfold bisect; intros H.
  destruct (Rlt_dec _ _) as [_ | Hn]; [reflexivity | contradiction].
Qed.

(** With a bracket and enough fuel to bring its width below the tolerance,
    the crossing estimate lies strictly inside the bracket. *)
Lemma bisect_strictly_inside (fuel : nat) (d : R -> R) (lo hi tol : R) :
  lo < hi -> opposite_signs (d lo) (d hi) -> (hi - lo) / 2 ^ fuel < tol ->
  exists c : R,
    bisect fuel d lo hi tol = Some (Crossing c) /\ lo < c < hi.
Proof.
  intros Hlt Hopp Hfuel.
  destruct (narrow_spec d tol fuel (lo, hi)) as
    (b' & Hnar & _ & _ & H1 & H2 & H3 & _ & _);
    [simpl; lra | apply opposite_signs_change; exact Hopp | exact Hfuel |].
  exists (midpoint b').
  rewrite (bisect_on_bracket fuel d lo hi tol Hopp), Hnar.
  split; [reflexivity |].
  unfold midpoint; simpl in H1, H3; lra.
Qed.

Lemma unit_width_fuel (n fuel : nat) (tol : R) :
  (n <= fuel)%nat -> 1 < tol * 2 ^ n -> (9 - 8) / 2 ^ fuel < tol.
Proof.
  intros Hle Hn.
  assert (Hpow : 2 ^ n <= 2 ^ fuel) by (apply Rle_pow; [lra | exact Hle]).
  assert (Hpos : 0 < 2 ^ fuel) by (apply pow_lt; lra).
  assert (Hpn : 0 < 2 ^ n) by (apply pow_lt; lra).
  apply Rmult_lt_reg_r with (r := 2 ^ fuel); [exact Hpos |].
  unfold Rdiv; rewrite Rmult_assoc, Rinv_l, Rmult_1_r by lra.
  assert (Htol : 0 < tol) by nra.
  nra.
Qed.

(** The notebook's own call, [bisect(energy_difference, 8, 9, xtol=0.1)]:
    when the energy difference has opposite signs at 8 and 9, four
    halvings suffice and the crossing lies strictly between 8 and 9. *)
Lemma crossing_strictly_inside
  (mu0 : R) (drive : System.t -> System.t) (total_energy : System.t -> R)
  (fuel : nat) :
  opposite_signs (Engine.energy_difference mu0 drive total_energy 8)
                 (Engine.energy_difference mu0 drive total_energy 9) ->
  (4 <= fuel)%nat ->
  exists c : R,
    crossing mu0 drive total_energy fuel = Some (Crossing c) /\ 8 < c < 9.
Proof.
  intros Hopp Hfuel; unfold crossing.
  apply bisect_strictly_inside; [lra | exact Hopp |].
  apply (unit_width_fuel 4); [exact Hfuel | simpl; lra].
Qed.

(** Negating the energy difference leaves the search unchanged, up to the
    signs of the two values reported by NoBracket. *)
Lemma halve_opp (d : R -> R) (b : bracket) :
  halve (fun L => - d L) b = halve d b.
Proof.
  unfold halve; cbv zeta.
  replace (- d (fst b) * - d (midpoint b)) with (d (fst b) * d (midpoint b))
    by ring.
  reflexivity.
Qed.

Lemma narrow_opp (fuel : nat) (d : R -> R) (tol : R) :
  forall b, narrow fuel (fun L => - d L) tol b = narrow fuel d tol b.
Proof.
  induction fuel as [| n IH]; intros b; simpl; [reflexivity |].
  destruct (Rlt_dec _ _); [reflexivity |].
  rewrite halve_opp; apply IH.
Qed.

Lemma bisect_opp (fuel : nat) (d : R -> R) (lo hi tol : R) :
  bisect fuel (fun L => - d L) lo hi tol =
  match bisect fuel d lo hi tol with
  | Some (NoBracket a b) => Some (NoBracket (- a) (- b))
  | r => r
  end.
Proof.
  unfold bisect.
  replace (- d lo * - d hi) with (d lo * d hi) by ring.
  destruct (Rlt_dec _ _); [| reflexivity].
  rewrite narrow_opp.
  destruct (narrow fuel d tol (lo, hi)); reflexivity.
Qed.

(** C5: on a bracket whose end values have opposite signs, and with a
    positive tolerance, the search goes through a chain of brackets starting
    at [lo, hi]; each one is left only while its width is not below the
    tolerance, for the half selected by evaluating d at its midpoint; every
    bracket of the chain retains a sign change; the last one is narrower
    than the tolerance and its midpoint is returned.  Enough fuel always
    exists. *)
Theorem bisect_narrows_and_returns_midpoint (d : R -> R) (lo hi tol : R) :
  lo < hi -> 0 < tol -> opposite_signs (d lo) (d hi) ->
  exists n : nat, forall fuel, (n <= fuel)%nat ->
    exists b' : bracket,
      bisect fuel d lo hi tol = Some (Crossing (midpoint b')) /\
      hd (lo, hi) (brackets fuel d tol (lo, hi)) = (lo, hi) /\
      last (brackets fuel d tol (lo, hi)) (lo, hi) = b' /\
      width b' < tol /\
      Forall (fun c => fst c < snd c /\ sign_change (d (fst c)) (d (snd c)))
             (brackets fuel d tol (lo, hi)) /\
      halving_chain d tol (brackets fuel d tol (lo, hi)).
Proof.
  intros Hlt Htol Hopp.
  destruct (enough_halvings tol (hi - lo) Htol) as [n Hn].
  exists n; intros fuel Hfuel.
  assert (Hsc : sign_change (d (fst (lo, hi))) (d (snd (lo, hi)))).
  { apply opposite_signs_change; exact Hopp. }
  destruct (narrow_spec d tol fuel (lo, hi)) as
    (b' & Hnar & Hlast & Hw & _ & _ & _ & Hall & Hchain);
    [simpl; lra | exact Hsc | unfold width; simpl; apply Hn; [exact Hfuel | lra] |].
  exists b'.
  rewrite (bisect_on_bracket fuel d lo hi tol Hopp), Hnar.
  repeat split; try assumption.
  apply brackets_head.
Qed.

Lemma bisect_narrows_witness :
  exists n : nat, forall fuel, (n <= fuel)%nat ->
    exists b' : bracket,
      bisect fuel ramp 8 9 (1 / 10) = Some (Crossing (midpoint b')) /\
      hd (8, 9) (brackets fuel ramp (1 / 10) (8, 9)) = (8, 9) /\
      last (brackets fuel ramp (1 / 10) (8, 9)) (8, 9) = b' /\
      width b' < 1 / 10 /\
      Forall (fun c => fst c < snd c /\
                       sign_change (ramp (fst c)) (ramp (snd c)))
             (brackets fuel ramp (1 / 10) (8, 9)) /\
      halving_chain ramp (1 / 10) (brackets fuel ramp (1 / 10) (8, 9)).
Proof.
  apply (bisect_narrows_and_returns_midpoint ramp 8 9 (1 / 10));
    [lra | lra | unfold opposite_signs, ramp; left; lra].
Defined.

(** C3: called on [8, 9] with tolerance 0.05, on an energy difference whose
    values at 8 and 9 have opposite signs, the search returns a crossing
    estimate strictly between 8 and 9; five halvings are enough. *)
Theorem bisect_8_9_strictly_inside (d : R -> R) (fuel : nat) :
  opposite_signs (d 8) (d 9) -> (5 <= fuel)%nat ->
  exists c : R,
    bisect fuel d 8 9 (5 / 100) = Some (Crossing c) /\ 8 < c < 9.
Proof.
  intros Hopp Hfuel.
  apply bisect_strictly_inside; [lra | exact Hopp |].
  apply (unit_width_fuel 5); [exact Hfuel | simpl; lra].
Qed.

Lemma bisect_8_9_witness :
  exists c : R,
    bisect 5 ramp 8 9 (5 / 100) = Some (Crossing c) /\ 8 < c < 9.
Proof.
  apply (bisect_8_9_strictly_inside ramp 5);
    [unfold opposite_signs, ramp; left; lra | lia].
Defined.

(** C4: when the energy difference has the same strict sign at both end
    points, the search returns NoBracket with the two end-point values,
    whatever the fuel and the tolerance, and no crossing estimate. *)
Theorem bisect_no_bracket (d : R -> R) (lo hi tol : R) (fuel : nat) :
  same_sign (d lo) (d hi) ->
  bisect fuel d lo hi tol = Some (NoBracket (d lo) (d hi)).
Proof.
  rewrite same_sign_iff; unfold bisect; intros H.
  destruct (Rlt_dec _ _) as [Hneg | _]; [lra | reflexivity].
Qed.

Lemma bisect_no_bracket_witness :
  bisect 0 (fun _ => 1) 8 9 (1 / 10) = Some (NoBracket 1 1).
Proof.
  apply (bisect_no_bracket (fun _ => 1) 8 9 (1 / 10) 0).
  unfold same_sign; left; lra.
Defined.

End SearchFacts.

(** ** Facts about field construction *)

Module FieldFacts.
Import Field.

Lemma norm_sq_vscale (c : R) (v : Vec) :
  norm_sq (vscale c v) = c ^ 2 * norm_sq v.
Proof. unfold norm_sq, vscale, vx, vy, vz; simpl; ring. Qed.

Lemma vnorm_vscale (c : R) (v : Vec) : vnorm (vscale c v) = Rabs c * vnorm v.
Proof.
  unfold vnorm; rewrite norm_sq_vscale.
  rewrite sqrt_mult; [| apply pow2_ge_0 | apply norm_sq_nonneg].
  f_equal. replace (c ^ 2) with (Rsqr c) by (unfold Rsqr; ring).
  apply sqrt_Rsqr_abs.
Qed.

Section Construction.

Variable threshold : R.
Variable fallback : Vec.
Hypothesis threshold_nonneg : 0 <= threshold.
Hypothesis fallback_nonzero : 0 < norm_sq fallback.

Lemma direction_nonzero (init : Vec -> Vec) (pos : Vec) :
  0 < norm_sq (direction threshold fallback init pos).
Proof.
  unfold direction; cbv zeta.
  destruct (Rle_dec _ _) as [_ | Hbig]; [exact fallback_nonzero | lra].
Qed.

Lemma stored_norm (f : t) (pos : Vec) :
  0 <= norm f -> vnorm (stored threshold fallback f pos) = norm f.
Proof.
  intros HMs; unfold stored; cbv zeta.
  pose proof (vnorm_pos _ (direction_nonzero (value f) pos)) as Hd.
  rewrite !vnorm_vscale.
  rewrite (Rabs_pos_eq (norm f)) by exact HMs.
  rewrite Rabs_pos_eq by (left; apply Rinv_0_lt_compat; exact Hd).
  rewrite Rinv_l by lra. ring.
Qed.

End Construction.

(** C6: right after construction from a mesh, an initialiser and a
    non-negative saturation magnitude, with a non-negative threshold and a
    non-zero fallback direction, the Euclidean norm of every stored vector
    is within 1e-9 (relative) of the saturation magnitude; over the reals
    it equals it. *)
Theorem field_norm_after_construction (threshold : R) (fallback : Vec) (f : t) :
  0 <= threshold -> 0 < norm_sq fallback -> 0 <= norm f ->
  Forall (fun v => Rabs (vnorm v - norm f) <= / 10 ^ 9 * norm f)
         (array threshold fallback f).
Proof.
  intros Hthr Hfb HMs; unfold array.
  apply Forall_forall; intros v Hin.
  apply in_map_iff in Hin; destruct Hin as (ijk & <- & _).
  rewrite (stored_norm threshold fallback Hthr Hfb f _ HMs).
  replace (norm f - norm f) with 0 by ring; rewrite Rabs_R0.
  apply Rmult_le_pos; [| exact HMs].
  left; apply Rinv_0_lt_compat; apply pow_lt; lra.
Qed.

Lemma field_norm_witness :
  Forall (fun v => Rabs (vnorm v - 1) <= / 10 ^ 9 * 1)
         (array (5 / 100) (1, 0, 0)
                (mk Engine.mesh (fun _ => (0, 0, 0)) 1)).
Proof.
  apply (field_norm_after_construction (5 / 100) (1, 0, 0)
           (mk Engine.mesh (fun _ => (0, 0, 0)) 1));
    [lra | unfold norm_sq, vx, vy, vz; simpl; lra | simpl; lra].
Defined.

End FieldFacts.

(** ** Facts about the material constants and the energy difference *)

Module EngineFacts.
Import Engine.

Lemma Km_pos : 0 < Km.
Proof. unfold Km; apply pow_lt; lra. Qed.

Lemma cubesize_pos : 0 < cubesize.
Proof.
  unfold cubesize; apply Rmult_lt_0_compat; [lra |].
  apply Rinv_0_lt_compat; apply pow_lt; lra.
Qed.

Lemma Ms_squared (mu0 : R) : 0 < mu0 -> Ms mu0 ^ 2 = 2 * Km / mu0.
Proof.
  intros Hmu; unfold Ms; apply pow2_sqrt.
  pose proof Km_pos as HK.
  apply Rmult_le_pos; [lra | left; apply Rinv_0_lt_compat; exact Hmu].
Qed.

Lemma A_is_Km_lex2 (mu0 L : R) : 0 < mu0 -> A mu0 L = Km * lex L ^ 2.
Proof.
  intros Hmu; unfold A; rewrite (Ms_squared mu0 Hmu); field; lra.
Qed.

(** Over the reals: for every positive L (and a positive vacuum
    permeability), the constants derived by [minimise_system_energy] satisfy
    (1/2) mu0 Ms^2 = Km and sqrt (A / Km) = cubesize / L, so the cube edge
    is L exchange lengths, and the anisotropy constant is 0.1 Km. *)
Lemma material_constants (mu0 L : R) :
  0 < mu0 -> 0 < L ->
  1 / 2 * mu0 * Ms mu0 ^ 2 = Km /\
  sqrt (A mu0 L / Km) = cubesize / L /\
  cubesize / sqrt (A mu0 L / Km) = L /\
  K = 1 / 10 * Km.
Proof.
  intros Hmu HL.
  pose proof Km_pos as HK. pose proof cubesize_pos as Hc.
  assert (Hlex : 0 < cubesize / L).
  { apply Rmult_lt_0_compat; [exact Hc | apply Rinv_0_lt_compat; exact HL]. }
  assert (Hsqrt : sqrt (A mu0 L / Km) = cubesize / L).
  { rewrite (A_is_Km_lex2 mu0 L Hmu); unfold lex.
    replace (Km * (cubesize / L) ^ 2 / Km) with ((cubesize / L) ^ 2)
      by (field; lra).
    apply sqrt_pow2; lra. }
  repeat split.
  - rewrite (Ms_squared mu0 Hmu); field; lra.
  - exact Hsqrt.
  - rewrite Hsqrt; field; lra.
Qed.

(** C9 (as stated) fails in the code's double-precision arithmetic: with
    mu0 = 4*pi*1e-7 the product 0.5*mu0*Ms**2 compares unequal to Km, and
    at L = 8.5 the cube edge in exchange lengths compares unequal to L. *)
Lemma material_constants_inexact :
  PrimFloat.eqb Binary64.half_mu0_Ms2 Binary64.Km = false /\
  PrimFloat.eqb (Binary64.edge_in_exchange_lengths 8.5%float) 8.5%float = false.
Proof. split; vm_compute; reflexivity. Qed.

(** C9 (as the code has it): in exact arithmetic, for every positive L and
    positive mu0, (1/2) mu0 Ms^2 = Km, sqrt (A / Km) = cubesize / L, the
    cube edge is L exchange lengths and K = 0.1 Km; as computed in double
    precision with mu0 = 4*pi*1e-7 these hold up to rounding only:
    0.5*mu0*Ms**2 is the double next above Km (1000000.0000000001), the
    edge at L = 8.5 is the double next below 8.5 (8.4999999999999982), the
    edge at L = 8 is 8, and K is exactly 100000. *)
Theorem material_constants_up_to_rounding (mu0 L : R) :
  0 < mu0 -> 0 < L ->
  (1 / 2 * mu0 * Ms mu0 ^ 2 = Km /\
   sqrt (A mu0 L / Km) = cubesize / L /\
   cubesize / sqrt (A mu0 L / Km) = L /\
   K = 1 / 10 * Km) /\
  (Binary64.half_mu0_Ms2 = PrimFloat.next_up Binary64.Km /\
   Binary64.edge_in_exchange_lengths 8.5%float = PrimFloat.next_down 8.5%float /\
   Binary64.edge_in_exchange_lengths 8%float = 8%float /\
   Binary64.K = 100000%float).
Proof.
  intros Hmu HL; split; [apply material_constants; assumption |].
  repeat split; vm_compute; reflexivity.
Qed.

Lemma material_constants_up_to_rounding_witness :
  (1 / 2 * Samples.mu0_SI * Ms Samples.mu0_SI ^ 2 = Km /\
   sqrt (A Samples.mu0_SI 8 / Km) = cubesize / 8 /\
   cubesize / sqrt (A Samples.mu0_SI 8 / Km) = 8 /\
   K = 1 / 10 * Km) /\
  (Binary64.half_mu0_Ms2 = PrimFloat.next_up Binary64.Km /\
   Binary64.edge_in_exchange_lengths 8.5%float = PrimFloat.next_down 8.5%float /\
   Binary64.edge_in_exchange_lengths 8%float = 8%float /\
   Binary64.K = 100000%float).
Proof.
  apply (material_constants_up_to_rounding Samples.mu0_SI 8); [| lra].
  unfold Samples.mu0_SI; apply Rmult_lt_0_compat;
    [pose proof PI_RGT_0; lra | apply Rinv_0_lt_compat; apply pow_lt; lra].
Defined.

(** C1 (as the code has it): for every L the energy difference is the
    total energy of the relaxed vortex-state system minus that of the
    relaxed flower-state system, the opposite of flower minus vortex. *)
Theorem energy_difference_is_vortex_minus_flower
  (mu0 : R) (drive : System.t -> System.t) (total_energy : System.t -> R)
  (L : R) :
  let E := fun m_init =>
             total_energy (minimise_system_energy mu0 drive L m_init) in
  energy_difference mu0 drive total_energy L
  = E Init.m_init_vortex - E Init.m_init_flower /\
  energy_difference mu0 drive total_energy L
  = - (E Init.m_init_flower - E Init.m_init_vortex).
Proof. unfold energy_difference; cbv zeta; split; ring. Qed.

Lemma nano_pos : 0 < Init.nano.
Proof. unfold Init.nano; apply Rinv_0_lt_compat; apply pow_lt; lra. Qed.

Lemma flower_raw_at_probe : Init.flower_raw Samples.probe = (0, 0, 0).
Proof.
  pose proof nano_pos as Hn.
  unfold Init.flower_raw, Samples.probe, vy, vz; simpl.
  replace (Init.nano / 2 / Init.nano) with (1 / 2) by (field; lra).
  repeat f_equal; lra.
Qed.

Lemma flower_at_probe : Init.m_init_flower Samples.probe = (1, 0, 0).
Proof.
  apply InitFacts.flower_small; rewrite flower_raw_at_probe.
  unfold norm_sq, vx, vy, vz; simpl; lra.
Qed.

(** C1 (as the spec words it) fails: with the probe read-out the flower
    system has energy 1 and the vortex system energy 0, and the code
    returns -1 where flower minus vortex is 1. *)
Lemma energy_difference_not_flower_minus_vortex :
  energy_difference Samples.mu0_SI Samples.no_drive Samples.probe_energy 8 <>
  Samples.probe_energy
    (minimise_system_energy Samples.mu0_SI Samples.no_drive 8
                            Init.m_init_flower)
  - Samples.probe_energy
      (minimise_system_energy Samples.mu0_SI Samples.no_drive 8
                              Init.m_init_vortex).
Proof.
  unfold energy_difference, minimise_system_energy, initial_system,
    Samples.no_drive, Samples.probe_energy; simpl.
  rewrite flower_at_probe; unfold vx; simpl; lra.
Qed.

End EngineFacts.

(** ** Configurability of the fallback *)

Module FallbackFacts.
Import Init.

Lemma vortex_unit (pos : Vec) : norm_sq (m_init_vortex pos) = 1.
Proof.
  unfold m_init_vortex, norm_sq, vx, vy, vz; cbv zeta; simpl.
  pose proof (sin2_cos2 (PI / 2 * (- (fst (fst pos) / nano) - 5 / 10))) as H.
  unfold Rsqr in H; lra.
Qed.

(** C8 (as the spec words it) fails: with the threshold 0.05 and the
    fallback direction (0, 0, 1) configured at field construction, the cell
    at the probe position, where the flower vector (0, -2z+1, 2y-1) is zero,
    does not get the configured direction but (1, 0, 0). *)
Lemma flower_ignores_configured_fallback :
  norm_sq (flower_raw Samples.probe) <= 5 / 100 /\
  Field.direction (5 / 100) (0, 0, 1) flower_raw Samples.probe = (0, 0, 1) /\
  Field.direction (5 / 100) (0, 0, 1) m_init_flower Samples.probe = (1, 0, 0) /\
  Field.direction (5 / 100) (0, 0, 1) m_init_flower Samples.probe <> (0, 0, 1).
Proof.
  assert (Hraw : norm_sq (flower_raw Samples.probe) <= 5 / 100).
  { rewrite EngineFacts.flower_raw_at_probe.
    unfold norm_sq, vx, vy, vz; simpl; lra. }
  assert (Hdir : Field.direction (5 / 100) (0, 0, 1) m_init_flower
                   Samples.probe = (1, 0, 0)).
  { unfold Field.direction; cbv zeta.
    pose proof (InitFacts.flower_norm_sq_gt Samples.probe) as Hgt.
    destruct (Rle_dec _ _) as [Hle | _]; [lra |].
    apply EngineFacts.flower_at_probe. }
  repeat split.
  - exact Hraw.
  - unfold Field.direction; cbv zeta.
    destruct (Rle_dec _ _) as [_ | Hn]; [reflexivity | contradiction].
  - exact Hdir.
  - rewrite Hdir; intros H; injection H; intros; lra.
Qed.

(** C8 (as the code has it): the threshold 0.05 and the fallback direction
    (1, 0, 0) are fixed inside the flower initialiser: it returns (1, 0, 0)
    exactly when the squared norm of (0, -2z+1, 2y-1) is at most 0.05, and a
    threshold of at most 0.05 and a fallback direction configured at field
    construction never take effect on it. *)
Theorem flower_fallback_is_fixed
  (threshold : R) (fallback pos : Vec) :
  threshold <= 5 / 100 ->
  (m_init_flower pos = (1, 0, 0) <-> norm_sq (flower_raw pos) <= 5 / 100) /\
  Field.direction threshold fallback m_init_flower pos = m_init_flower pos.
Proof.
  intros Hthr; split; [apply InitFacts.flower_is_fallback_iff |].
  unfold Field.direction; cbv zeta.
  pose proof (InitFacts.flower_norm_sq_gt pos) as Hgt.
  destruct (Rle_dec _ _) as [Hle | _]; [lra | reflexivity].
Qed.

Lemma flower_fallback_is_fixed_witness :
  (m_init_flower Samples.probe = (1, 0, 0) <->
   norm_sq (flower_raw Samples.probe) <= 5 / 100) /\
  Field.direction (5 / 100) (0, 0, 1) m_init_flower Samples.probe =
  m_init_flower Samples.probe.
Proof.
  apply (flower_fallback_is_fixed (5 / 100) (0, 0, 1) Samples.probe); lra.
Defined.

End FallbackFacts.

(** ** More about the two initial configurations *)

Module InitShape.
Import Init.

Lemma nano_neq_0 : nano <> 0.
Proof. pose proof EngineFacts.nano_pos; lra. Qed.

Lemma flower_raw_norm_sq (pos : Vec) :
  norm_sq (flower_raw pos) =
  4 * ((vy pos / nano - 1 / 2) ^ 2 + (vz pos / nano - 1 / 2) ^ 2).
Proof. unfold norm_sq, flower_raw, vx, vy, vz; simpl; field; apply nano_neq_0. Qed.

(** Whatever the position, the squared norm of the flower initialiser's
    result exceeds 0.05. *)
Theorem flower_norm_sq_above_threshold (pos : Vec) :
  5 / 100 < norm_sq (m_init_flower pos).
Proof.
  rewrite InitFacts.m_init_flower_unfold.
  destruct (Rle_dec _ _) as [_ | Hbig]; [| lra].
  unfold norm_sq, vx, vy, vz; simpl; lra.
Qed.

(** Outside the fallback region the flower initialiser's result has no x
    component and is perpendicular to the direction from the line
    y = z = 0.5e-9 to the position: it circulates around that line. *)
Theorem flower_circulates (pos : Vec) :
  m_init_flower pos <> (1, 0, 0) ->
  vx (m_init_flower pos) = 0 /\
  vy (m_init_flower pos) * (vy pos / nano - 1 / 2)
  + vz (m_init_flower pos) * (vz pos / nano - 1 / 2) = 0.
Proof.
  intros Hne.
  rewrite InitFacts.m_init_flower_unfold in *.
  destruct (Rle_dec _ _) as [_ | _]; [contradiction Hne; reflexivity |].
  unfold flower_raw, vx, vy, vz; simpl; split;
    [reflexivity | field; apply nano_neq_0].
Qed.

Lemma flower_circulates_witness :
  vx (m_init_flower (0, 0, 0)) = 0 /\
  vy (m_init_flower (0, 0, 0)) * (vy (0, 0, 0) / nano - 1 / 2)
  + vz (m_init_flower (0, 0, 0)) * (vz (0, 0, 0) / nano - 1 / 2) = 0.
Proof.
  apply (flower_circulates (0, 0, 0)).
  intros H; apply InitFacts.flower_is_fallback_iff in H.
  rewrite flower_raw_norm_sq in H.
  unfold vy, vz in H; simpl in H; unfold Rdiv in H.
  rewrite !Rmult_0_l in H; lra.
Defined.

(** The vortex initialiser looks at the x coordinate only. *)
Theorem vortex_independent_of_y_z (x y1 z1 y2 z2 : R) :
  m_init_vortex (x, y1, z1) = m_init_vortex (x, y2, z2).
Proof. reflexivity. Qed.

End InitShape.

(** ** More about the material constants and the mesh *)

Module EngineShape.
Import Engine.

Lemma lex_pos (L : R) : 0 < L -> 0 < lex L.
Proof.
  intros HL; unfold lex; apply Rmult_lt_0_compat;
    [exact EngineFacts.cubesize_pos | apply Rinv_0_lt_compat; exact HL].
Qed.

Lemma lex_decreasing (L1 L2 : R) : 0 < L1 -> L1 < L2 -> lex L2 < lex L1.
Proof.
  intros H1 H12; unfold lex, Rdiv.
  apply Rmult_lt_compat_l; [exact EngineFacts.cubesize_pos |].
  apply Rinv_lt_contravar; [apply Rmult_lt_0_compat; lra | exact H12].
Qed.

Lemma A_decreasing (mu0 L1 L2 : R) :
  0 < mu0 -> 0 < L1 -> L1 < L2 -> A mu0 L2 < A mu0 L1.
Proof.
  intros Hmu H1 H12.
  rewrite !(EngineFacts.A_is_Km_lex2 mu0) by exact Hmu.
  pose proof EngineFacts.Km_pos as HK.
  pose proof (lex_pos L2 ltac:(lra)) as Hp2.
  pose proof (lex_decreasing L1 L2 H1 H12) as Hd.
  apply Rmult_lt_compat_l; [exact HK |]; nra.
Qed.

(** The exchange constant handed to the engine is never negative and never
    increases when the edge length L grows. *)
Theorem exchange_constant_nonincreasing (mu0 L1 L2 : R) :
  0 < mu0 -> 0 < L1 -> L1 <= L2 ->
  0 <= A mu0 L2 /\ A mu0 L2 <= A mu0 L1.
Proof.
  intros Hmu H1 H12; split.
  - rewrite (EngineFacts.A_is_Km_lex2 mu0) by exact Hmu.
    pose proof EngineFacts.Km_pos as HK.
    apply Rmult_le_pos; [lra | apply pow2_ge_0].
  - destruct H12 as [Hlt | ->]; [| lra].
    left; apply A_decreasing; assumption.
Qed.

Lemma exchange_constant_nonincreasing_witness :
  0 <= A Samples.mu0_SI 9 /\ A Samples.mu0_SI 9 <= A Samples.mu0_SI 8.
Proof.
  apply (exchange_constant_nonincreasing Samples.mu0_SI 8 9); [| lra | lra].
  unfold Samples.mu0_SI; apply Rmult_lt_0_compat;
    [pose proof PI_RGT_0; lra | apply Rinv_0_lt_compat; apply pow_lt; lra].
Defined.



Lemma centre_coordinate_nm (i : nat) :
  (0 + (INR i + 1 / 2) * cellsize) / Init.nano = (INR i + 1 / 2) * (25 / 4).
Proof.
  unfold cellsize, cubesize, N, Init.nano; field.
Qed.

(** At every cell centre of the notebook's mesh the flower initialiser
    returns the vector (0, -2z+1, 2y-1) itself: the fallback (1, 0, 0) is
    never taken there. *)
Theorem flower_fallback_unused_on_mesh (ijk : Mesh.index) :
  Init.m_init_flower (Mesh.centre mesh ijk) =
  Init.flower_raw (Mesh.centre mesh ijk) /\
  Init.m_init_flower (Mesh.centre mesh ijk) <> (1, 0, 0).
Proof.
  destruct ijk as [[i j] k].
  assert (Hbig : ~ norm_sq (Init.flower_raw (Mesh.centre mesh (i, j, k)))
                   <= 5 / 100).
  { rewrite InitShape.flower_raw_norm_sq.
    unfold Mesh.centre, mesh, vx, vy, vz; simpl.
    rewrite !centre_coordinate_nm.
    pose proof (pos_INR j) as Hj. pose proof (pos_INR k) as Hk.
    nra. }
  split.
  - apply InitFacts.flower_large; exact Hbig.
  - rewrite (InitFacts.flower_large _ Hbig).
    unfold Init.flower_raw; intros H; injection H; intros; lra.
Qed.

End EngineShape.

(** ** Facts about the energy scan *)

Module ScanFacts.
Import Scan.

Section Scan.

Variable mu0 : R.
Variable drive : System.t -> System.t.
Variable total_energy : System.t -> R.

Let energy_of (m_init : Vec -> Vec) (L : R) : R :=
  total_energy (Engine.minimise_system_energy mu0 drive L m_init).

Lemma scan_loop_appends (Ls : list R) :
  forall acc : list R * list R,
    scan_loop mu0 drive total_energy Ls acc =
    (fst acc ++ map (energy_of Init.m_init_vortex) Ls,
     snd acc ++ map (energy_of Init.m_init_flower) Ls).
Proof.
  induction Ls as [| L rest IH]; intros [ve fe]; simpl.
  - rewrite !app_nil_r; reflexivity.
  - rewrite IH; simpl; rewrite <- !app_assoc; reflexivity.
Qed.

Lemma energy_scan_maps (Ls : list R) :
  energy_scan mu0 drive total_energy Ls =
  (map (energy_of Init.m_init_vortex) Ls,
   map (energy_of Init.m_init_flower) Ls).
Proof. unfold energy_scan; rewrite scan_loop_appends; reflexivity. Qed.

End Scan.

(** The scan returns one vortex energy and one flower energy per scanned
    edge length, in scan order, and at every position the vortex energy
    minus the flower energy is the energy difference that the search
    evaluates at that edge length. *)
Theorem energy_scan_matches_energy_difference
  (mu0 : R) (drive : System.t -> System.t) (total_energy : System.t -> R)
  (Ls : list R) :
  let vortex_energies := fst (energy_scan mu0 drive total_energy Ls) in
  let flower_energies := snd (energy_scan mu0 drive total_energy Ls) in
  List.length vortex_energies = List.length Ls /\
  List.length flower_energies = List.length Ls /\
  forall i : nat, (i < List.length Ls)%nat ->
    nth i vortex_energies 0 - nth i flower_energies 0 =
    Engine.energy_difference mu0 drive total_energy (nth i Ls 0).
Proof.
  cbv zeta; rewrite energy_scan_maps; simpl.
  rewrite !length_map; repeat split.
  intros i Hi.
  rewrite (nth_indep _ 0
             (total_energy
                (Engine.minimise_system_energy mu0 drive 0 Init.m_init_vortex)))
    by (rewrite length_map; exact Hi).
  rewrite (nth_indep (map _ Ls) 0
             (total_energy
                (Engine.minimise_system_energy mu0 drive 0 Init.m_init_flower)))
    by (rewrite length_map; exact Hi).
  rewrite !map_nth with (d := 0).
  reflexivity.
Qed.

End ScanFacts.
